(** * QuickScalpMACD: the bar-driven strategy of [src/strategies/crossover.py]

    A shallow embedding of the strategy class [QuickScalpMACD]: its
    parameters, its three fields of position state, the position sizer
    [_calc_size] and the per-bar callback [next].

    Python's [float] is IEEE-754 binary64, so prices, fractions, equity and
    indicator values are primitive [float]s and every arithmetic operation and
    comparison of the source is the binary64 one.  Python's [int] is [Z].
    Exceptions are an explicit error result.  The indicator lines and the
    broker's portfolio value come from the backtesting framework; they are
    inputs of each step. *)

From Stdlib Require Import ZArith Bool List Lia.
From Stdlib Require Import Floats.
Import ListNotations.

Open Scope Z_scope.

(* Decimal literals denote the nearest binary64 value, as they do in Python. *)
Set Warnings "-inexact-float".

(** ** Python values and exceptions *)

Module Py.

(** The exceptions the modelled code can raise. *)
Inductive exn : Type :=
| ZeroDivisionError   (* float division by zero *)
| ValueError          (* math.floor of NaN *)
| OverflowError       (* math.floor of an infinity *)
| TypeError.          (* arithmetic on None *)

(** A computation that returns a value or raises. *)
Definition result (A : Type) : Type := (exn + A)%type.

Definition ret {A : Type} (a : A) : result A := inr a.
Definition raise {A : Type} (e : exn) : result A := inl e.

Definition bind {A B : Type} (m : result A) (k : A -> result B) : result B :=
  match m with
  | inl e => inl e
  | inr a => k a
  end.

(** A number that is either a [float] or an [int], as the result of
    [min(raw_risk_size, max_affordable)] is. *)
Inductive num : Type :=
| NFloat (x : float)
| NInt (n : Z).

(** [x / y] on floats: Python raises on a zero divisor (of either sign). *)
Definition truediv (x y : float) : result float :=
  if (y =? 0)%float then raise ZeroDivisionError else ret (x / y)%float.

(** The signed mantissa of a finite binary64 number [(-1)^s * m * 2^e]. *)
Definition signed (s : bool) (m : positive) : Z :=
  if s then Z.neg m else Z.pos m.

(** [math.floor] on a float: the greatest integer below it, exactly. *)
Definition floor_float (x : float) : result Z :=
  match Prim2SF x with
  | S754_nan => raise ValueError
  | S754_infinity _ => raise OverflowError
  | S754_zero _ => ret 0
  | S754_finite s m e =>
      if 0 <=? e then ret (signed s m * 2 ^ e)
      else ret (signed s m / 2 ^ (- e))
  end.

(** [math.floor] on either kind of number; an [int] is its own floor. *)
Definition floor (v : num) : result Z :=
  match v with
  | NFloat x => floor_float x
  | NInt n => ret n
  end.

(** [n < x] for an [int] and a [float]: Python compares the two exactly,
    without rounding the integer. *)
Definition int_lt_float (n : Z) (x : float) : bool :=
  match Prim2SF x with
  | S754_nan => false
  | S754_infinity s => negb s
  | S754_zero _ => n <? 0
  | S754_finite s m e =>
      if 0 <=? e then n <? signed s m * 2 ^ e
      else n * 2 ^ (- e) <? signed s m
  end.

(** [min(x, n)] of a float and an int: the second argument replaces the
    first only when it is strictly smaller. *)
Definition min_float_int (x : float) (n : Z) : num :=
  if int_lt_float n x then NInt n else NFloat x.

(** [math.isfinite]: neither NaN nor an infinity. *)
Definition isfinite (x : float) : bool :=
  match Prim2SF x with
  | S754_zero _ | S754_finite _ _ _ => true
  | S754_nan | S754_infinity _ => false
  end.

(** [x >= y] and [x > y] on floats. *)
Definition geb (x y : float) : bool := (y <=? x)%float.
Definition gtb (x y : float) : bool := (y <? x)%float.

End Py.

Notation "x <- m ;; k" := (Py.bind m (fun x => k))
  (at level 61, m at next level, right associativity).

(** ** Parameters *)

(** The [params] dictionary of the class. *)
Record Params : Type := mkParams {
  ema_period : Z;
  macd_fast : Z;
  macd_slow : Z;
  macd_signal : Z;
  rsi_period : Z;
  rsi_oversold : float;
  risk_per_trade : float;
  tp_pct : float;
  sl_pct : float;
  max_bars_in_trade : Z;
  ema_tolerance : float
}.

(** The defaults written in the class body. *)
Definition default_params : Params := {|
  ema_period := 200;
  macd_fast := 12;
  macd_slow := 26;
  macd_signal := 9;
  rsi_period := 14;
  rsi_oversold := 40;
  risk_per_trade := 1;
  tp_pct := 0.001;
  sl_pct := 0.0010;
  max_bars_in_trade := 50;
  ema_tolerance := 0.005
|}.

(** ** Position sizer *)

(** [_calc_size]: [equity] is what [self.broker.getvalue()] returns. *)
Definition _calc_size (p : Params) (equity price : float) : Py.result Z :=
  let risk_cap := (equity * risk_per_trade p)%float in
  let sl_dist := (price * sl_pct p)%float in
  if (sl_dist <=? 0)%float then Py.ret 0
  else
    raw_risk_size <- Py.truediv risk_cap sl_dist ;;
    q <- Py.truediv equity price ;;
    max_affordable <- Py.floor_float q ;;
    let size := Py.min_float_int raw_risk_size max_affordable in
    n <- Py.floor size ;;
    Py.ret (Z.max 1 n).

(** ** Position state and per-bar inputs *)

(** The three fields [__init__] sets under "Simple internal state". *)
Record State : Type := mkState {
  in_trade : bool;
  entry_price : option float;
  bars_in_trade : Z
}.

Definition init_state : State :=
  {| in_trade := false; entry_price := None; bars_in_trade := 0 |}.

(** One OHLCV bar of the data feed. *)
Record Bar : Type := mkBar {
  bar_open : float;
  bar_high : float;
  bar_low : float;
  bar_close : float;
  bar_volume : float
}.

(** What the strategy can read at one bar index: the bar, the value of each
    indicator line at that index, and the broker's portfolio value.  A line
    that has no value yet holds NaN. *)
Record Tick : Type := mkTick {
  bar : Bar;
  ema : float;          (* self.ema *)
  macd : float;         (* self.macd.macd *)
  signal : float;       (* self.macd.signal *)
  rsi : float;          (* self.rsi *)
  cross : float;        (* self.cross *)
  broker_value : float  (* self.broker.getvalue() *)
}.

(** Why a position was closed: the four branches that set [exit_reason]. *)
Inductive ExitReason : Type :=
| TakeProfit
| StopLoss
| MacdCrossDown
| MaxBars.

(** The order sent to the broker on a bar: [self.buy(size=size)],
    [self.close()], or none. *)
Inductive Decision : Type :=
| EnterLong (size : Z)
| Exit (reason : ExitReason)
| Hold.

(** How [next] reads the crossover line: [self.cross > 0] and
    [self.cross < 0]. *)
Inductive CrossState : Type := CROSS_UP | CROSS_DOWN | NONE.

Definition cross_state (c : float) : CrossState :=
  if Py.gtb c 0 then CROSS_UP
  else if (c <? 0)%float then CROSS_DOWN
  else NONE.

(** ** The per-bar callback *)

Section Strategy.

Variable p : Params.

(** The bar counter update at the top of [next]. *)
Definition track_bars (st : State) : Z :=
  if in_trade st then bars_in_trade st + 1 else 0.

(** [buy_condition], with [prev] the lines at index -1 and [cur] at 0. *)
Definition buy_condition (prev cur : Tick) : bool :=
  let price := bar_close (bar cur) in
  let ema_floor := (ema cur * (1 - ema_tolerance p))%float in
  let macd_cross_up := Py.gtb (cross cur) 0 in
  let macd_below_zero := (macd cur <? 0)%float in
  let rsi_oversold_and_rising :=
    (rsi cur <? rsi_oversold p)%float && Py.gtb (rsi cur) (rsi prev) in
  let ema_trend_ok := Py.geb price ema_floor in
  macd_cross_up && macd_below_zero && rsi_oversold_and_rising && ema_trend_ok.

(** The [if / elif] chain that chooses [exit_reason]; [bars] is the
    counter after [track_bars]. *)
Definition exit_reason (entry : float) (bars : Z) (cur : Tick)
  : option ExitReason :=
  let price := bar_close (bar cur) in
  let tp_price := (entry * (1 + tp_pct p))%float in
  let sl_price := (entry * (1 - sl_pct p))%float in
  if Py.geb price tp_price then Some TakeProfit
  else if (price <=? sl_price)%float then Some StopLoss
  else if (cross cur <? 0)%float then Some MacdCrossDown
  else if max_bars_in_trade p <=? bars then Some MaxBars
  else None.

(** [next]: returns the state after the bar and the order sent, or the
    exception raised. *)
Definition next (st : State) (prev cur : Tick) : Py.result (State * Decision) :=
  let price := bar_close (bar cur) in
  let bars := track_bars st in
  if negb (in_trade st) then
    if buy_condition prev cur then
      size <- _calc_size p (broker_value cur) price ;;
      if size <=? 0 then
        Py.ret ({| in_trade := false;
                   entry_price := entry_price st;
                   bars_in_trade := bars |}, Hold)
      else
        Py.ret ({| in_trade := true;
                   entry_price := Some price;
                   bars_in_trade := bars |}, EnterLong size)
    else
      Py.ret ({| in_trade := false;
                 entry_price := entry_price st;
                 bars_in_trade := bars |}, Hold)
  else
    match entry_price st with
    | None => Py.raise Py.TypeError
    | Some entry =>
        match exit_reason entry bars cur with
        | Some r =>
            Py.ret ({| in_trade := false;
                       entry_price := entry_price st;
                       bars_in_trade := bars |}, Exit r)
        | None =>
            Py.ret ({| in_trade := true;
                       entry_price := entry_price st;
                       bars_in_trade := bars |}, Hold)
        end
    end.

(** The engine's loop: [next] once per bar, in order, each bar seeing its
    predecessor at index -1; an exception ends the run. *)
Fixpoint run (st : State) (prev : Tick) (ticks : list Tick)
  : Py.result (State * list Decision) :=
  match ticks with
  | [] => Py.ret (st, [])
  | cur :: rest =>
      r <- next st prev cur ;;
      r' <- run (fst r) cur rest ;;
      Py.ret (fst r', snd r :: snd r')
  end.

End Strategy.

(** ** Notions used to state the properties *)

Section Notions.

Local Open Scope float_scope.

Variable p : Params.

(** The state [next] leaves behind when it sends no entry order from FLAT. *)
Definition stay_flat (st : State) : State :=
  {| in_trade := false; entry_price := entry_price st; bars_in_trade := 0 |}.

(** The state right after an entry at [price]. *)
Definition entered (price : float) : State :=
  {| in_trade := true; entry_price := Some price; bars_in_trade := 0 |}.

(** The state after an exit from LONG state [st]. *)
Definition exited (st : State) : State :=
  {| in_trade := false; entry_price := entry_price st;
     bars_in_trade := bars_in_trade st + 1 |}.

(** The state after a bar held in LONG state [st]. *)
Definition held (st : State) : State :=
  {| in_trade := true; entry_price := entry_price st;
     bars_in_trade := bars_in_trade st + 1 |}.

(** The four entry conditions, as propositions on the current bar. *)
Definition entry_conditions (prev cur : Tick) : Prop :=
  cross_state (cross cur) = CROSS_UP /\
  (macd cur <? 0) = true /\
  ((rsi cur <? rsi_oversold p) = true /\ (rsi prev <? rsi cur) = true) /\
  (ema cur * (1 - ema_tolerance p) <=? bar_close (bar cur)) = true.

(** The exit rules as the specification lists them: an ordered list of
    condition and reason pairs, of which the first that holds wins. *)
Definition exit_rules (entry : float) (bars : Z) (cur : Tick)
  : list (bool * ExitReason) :=
  let price := bar_close (bar cur) in
  [ (entry * (1 + tp_pct p) <=? price, TakeProfit);
    (price <=? entry * (1 - sl_pct p), StopLoss);
    (cross cur <? 0, MacdCrossDown);
    ((max_bars_in_trade p <=? bars)%Z, MaxBars) ].

(** The first rule of an ordered list whose condition holds. *)
Fixpoint first_match (rules : list (bool * ExitReason)) : option ExitReason :=
  match rules with
  | [] => None
  | (c, r) :: rest => if c then Some r else first_match rest
  end.

(** A bar on which neither price exit nor the cross-down exit holds for a
    position entered at [entry]. *)
Definition no_earlier_exit (entry : float) (t : Tick) : Prop :=
  (entry * (1 + tp_pct p) <=? bar_close (bar t)) = false /\
  (bar_close (bar t) <=? entry * (1 - sl_pct p)) = false /\
  (cross t <? 0) = false.

(** What holds of the state at every point of a run. *)
Definition long_has_entry (st : State) : Prop :=
  in_trade st = true -> exists entry, entry_price st = Some entry.

(** A bar on which some indicator has no value yet: its line holds NaN. *)
Definition warming_up (t : Tick) : bool :=
  is_nan (ema t) || is_nan (macd t) || is_nan (signal t) || is_nan (rsi t).

(** The crossover line is computed from the MACD line and its signal line,
    so it has no value on a bar where one of them has none. *)
Definition cross_needs_inputs (t : Tick) : Prop :=
  is_nan (macd t) || is_nan (signal t) = true -> is_nan (cross t) = true.

(** The same tick with other open, high, low and volume fields. *)
Definition with_ohlv (t : Tick) (o h l v : float) : Tick :=
  {| bar := mkBar o h l (bar_close (bar t)) v;
     ema := ema t; macd := macd t; signal := signal t; rsi := rsi t;
     cross := cross t; broker_value := broker_value t |}.

(** The specification's well-formed price: a positive finite number. *)
Definition price_ok (x : float) : bool := Py.isfinite x && (0 <? x).

(** The specification's malformed bar: a price field that is not finite or
    not positive, or a negative volume. *)
Definition malformed_bar (b : Bar) : bool :=
  negb (price_ok (bar_open b) && price_ok (bar_high b) &&
        price_ok (bar_low b) && price_ok (bar_close b))
  || (bar_volume b <? 0).

End Notions.

(** ** The crossover detector *)

Section DetectorModel.

Local Open Scope float_scope.

(** A snapshot of the two MACD lines at a bar, present once both are ready. *)
Definition Snapshot : Type := option (float * float).

(** Modelled from the spec: the crossover detector.  The source obtains it as
    [bt.ind.CrossOver(self.macd.macd, self.macd.signal)], an indicator of the
    backtrader library whose code is not part of the repository; [next] only
    reads the sign of its line.  Given yesterday's and today's (macd_line,
    macd_signal) pairs it reports CROSS_UP if the sign of macd_line -
    macd_signal flips from <= 0 to > 0, CROSS_DOWN if it flips from >= 0 to
    < 0, else NONE; it needs two consecutive ready snapshots and reports
    NONE otherwise. *)
Definition crossover_detector (prev cur : Snapshot) : CrossState :=
  match prev, cur with
  | Some (pl, ps), Some (cl, cs) =>
      if (pl - ps <=? 0) && (0 <? cl - cs) then CROSS_UP
      else if (0 <=? pl - ps) && (cl - cs <? 0) then CROSS_DOWN
      else NONE
  | _, _ => NONE
  end.

(** The detector along a bar sequence, each bar seeing its predecessor. *)
Fixpoint detect (prev : Snapshot) (snaps : list Snapshot) : list CrossState :=
  match snaps with
  | [] => []
  | s :: rest => crossover_detector prev s :: detect s rest
  end.

End DetectorModel.

(** ** Example inputs *)

Section Examples.

Local Open Scope float_scope.

(** A tick with close [c] on which the crossover line is 0, so that no entry
    and no cross-down exit can fire. *)
Definition quiet_tick (c equity : float) : Tick :=
  {| bar := mkBar c c c c 1000; ema := 100; macd := -0.5; signal := -0.4;
     rsi := 25; cross := 0; broker_value := equity |}.

(** A tick with close [c] on which the crossover line is +1, the MACD line
    is below zero and the RSI is 28 (below 40); after [quiet_tick] the RSI is
    rising from 25, and the EMA floor is 100 * (1 - 0.005) = 99.5. *)
Definition signal_tick (c equity : float) : Tick :=
  {| bar := mkBar c c c c 1000; ema := 100; macd := -0.5; signal := -0.6;
     rsi := 28; cross := 1; broker_value := equity |}.

(** A malformed bar: negative open and close, infinite high, zero low and
    negative volume. *)
Definition bad_tick : Tick :=
  {| bar := mkBar (-1) infinity 0 (-5) (-100); ema := 100; macd := -0.5;
     signal := -0.4; rsi := 25; cross := 0; broker_value := 10000 |}.

(** A tick during warm-up: no indicator has a value yet. *)
Definition cold_tick (c : float) : Tick :=
  {| bar := mkBar c c c c 1000; ema := nan; macd := nan; signal := nan;
     rsi := nan; cross := nan; broker_value := 10000 |}.

(** A tick whose close is NaN. *)
Definition nan_close_tick : Tick :=
  {| bar := mkBar 100 100 100 nan 1000; ema := 100; macd := -0.5;
     signal := -0.6; rsi := 28; cross := 1; broker_value := 10000 |}.

(** The defaults with a take-profit fraction below the stop-loss one, so
    that one close can meet both thresholds. *)
Definition overlap_params : Params :=
  {| ema_period := 200; macd_fast := 12; macd_slow := 26; macd_signal := 9;
     rsi_period := 14; rsi_oversold := 40; risk_per_trade := 1;
     tp_pct := -0.002; sl_pct := 0.001; max_bars_in_trade := 50;
     ema_tolerance := 0.005 |}.

(** The defaults with a time-stop after three bars. *)
Definition short_params : Params :=
  {| ema_period := 200; macd_fast := 12; macd_slow := 26; macd_signal := 9;
     rsi_period := 14; rsi_oversold := 40; risk_per_trade := 1;
     tp_pct := 0.001; sl_pct := 0.001; max_bars_in_trade := 3;
     ema_tolerance := 0.005 |}.

End Examples.

(** ** Notions on decision sequences *)

Section Sequences.

Local Open Scope float_scope.

(** Whether entries and exits alternate along [ds], starting from a position
    that is open ([long = true]) or not: no entry while a position is open
    and no exit while none is. *)
Fixpoint alternates (long : bool) (ds : list Decision) : bool :=
  match ds with
  | [] => true
  | EnterLong _ :: rest => negb long && alternates true rest
  | Exit _ :: rest => long && alternates false rest
  | Hold :: rest => alternates long rest
  end.

(** Whether a position is open after the orders [ds]. *)
Fixpoint position_after (long : bool) (ds : list Decision) : bool :=
  match ds with
  | [] => long
  | EnterLong _ :: rest => position_after true rest
  | Exit _ :: rest => position_after false rest
  | Hold :: rest => position_after long rest
  end.

(** The counter is never negative, and below the time-stop while LONG. *)
Definition counter_in_range (p : Params) (st : State) : Prop :=
  (0 <= bars_in_trade st)%Z /\
  (in_trade st = true ->
   (bars_in_trade st < Z.max 1 (max_bars_in_trade p))%Z).

(** The recorded entry price, when there is one, is above zero. *)
Definition entry_is_positive (st : State) : Prop :=
  forall e, entry_price st = Some e -> (0 <? e) = true.

(** The defaults with an infinite stop-loss fraction. *)
Definition inf_stop_params : Params :=
  {| ema_period := 200; macd_fast := 12; macd_slow := 26; macd_signal := 9;
     rsi_period := 14; rsi_oversold := 40; risk_per_trade := 1;
     tp_pct := 0.001; sl_pct := infinity; max_bars_in_trade := 50;
     ema_tolerance := 0.005 |}.

End Sequences.

(** * Facts about binary64 comparisons

    The specification axioms of the primitive floats ([ltb_spec], [leb_spec],
    [eqb_spec], [mul_spec]) reduce each fact to a case analysis on the
    IEEE-754 class of the operands. *)

Section FloatFacts.

Local Open Scope float_scope.

Lemma is_nan_Prim2SF (x : float) : is_nan x = true -> Prim2SF x = S754_nan.
Proof.
  intros H. unfold Prim2SF. rewrite H. reflexivity.
Qed.

Lemma Prim2SF_is_nan (x : float) : Prim2SF x = S754_nan -> is_nan x = true.
Proof.
  intros H. unfold is_nan. rewrite eqb_spec, H. reflexivity.
Qed.

Lemma ltb_nan_l (x y : float) : is_nan x = true -> (x <? y) = false.
Proof.
  intros H. rewrite ltb_spec, (is_nan_Prim2SF x H). reflexivity.
Qed.

Lemma ltb_nan_r (x y : float) : is_nan y = true -> (x <? y) = false.
Proof.
  intros H. rewrite ltb_spec, (is_nan_Prim2SF y H).
  destruct (Prim2SF x); reflexivity.
Qed.

Lemma leb_nan_l (x y : float) : is_nan x = true -> (x <=? y) = false.
Proof.
  intros H. rewrite leb_spec, (is_nan_Prim2SF x H). reflexivity.
Qed.

Lemma leb_nan_r (x y : float) : is_nan y = true -> (x <=? y) = false.
Proof.
  intros H. rewrite leb_spec, (is_nan_Prim2SF y H).
  destruct (Prim2SF x); reflexivity.
Qed.

Lemma mul_nan_l (x y : float) : is_nan x = true -> is_nan (x * y) = true.
Proof.
  intros H. apply Prim2SF_is_nan.
  rewrite mul_spec, (is_nan_Prim2SF x H). reflexivity.
Qed.

(** A number above zero is not below it, nor equal to it. *)
Lemma SF_pos_not_neg (a : spec_float) :
  SFltb (S754_zero false) a = true ->
  SFltb a (S754_zero false) = false /\
  SFleb a (S754_zero false) = false /\
  SFeqb a (S754_zero false) = false.
Proof.
  destruct a as [s | s | | s m e]; try destruct s; cbn; intros H;
    try discriminate; repeat split; reflexivity.
Qed.

Lemma pos_not_ltb (x : float) : (0 <? x) = true -> (x <? 0) = false.
Proof.
  rewrite !ltb_spec. intros H. apply (SF_pos_not_neg _ H).
Qed.

Lemma pos_not_leb (x : float) : (0 <? x) = true -> (x <=? 0) = false.
Proof.
  rewrite ltb_spec, leb_spec. intros H. apply (SF_pos_not_neg _ H).
Qed.

Lemma pos_not_eqb (x : float) : (0 <? x) = true -> (x =? 0) = false.
Proof.
  rewrite ltb_spec, eqb_spec. intros H. apply (SF_pos_not_neg _ H).
Qed.

(** A product with a zero factor is a zero or NaN, never above zero. *)
Lemma mul_zero_not_pos (x y : float) : (x =? 0) = true -> (0 <? x * y) = false.
Proof.
  rewrite eqb_spec, ltb_spec, mul_spec.
  change (Prim2SF 0) with (S754_zero false).
  destruct (Prim2SF x) as [s | s | | s m e]; try destruct s; cbn;
    try discriminate; intros _;
    destruct (Prim2SF y) as [t | t | | t m' e']; try destruct t; reflexivity.
Qed.

End FloatFacts.

(** * The position sizer *)

Section Sizer.

Local Open Scope float_scope.

(** [math.floor] returns on every finite float. *)
Lemma floor_float_finite (x : float) :
  Py.isfinite x = true -> exists n, Py.floor_float x = inr n.
Proof.
  unfold Py.isfinite, Py.floor_float.
  destruct (Prim2SF x) as [s | s | | s m e]; try discriminate; intros _.
  - exists 0%Z. reflexivity.
  - destruct (0 <=? e)%Z; eexists; reflexivity.
Qed.

(** Past the stop-distance guard, a returned size is [max(1, _)]. *)
Lemma calc_size_past_guard (p : Params) (equity price : float) (n : Z) :
  (price * sl_pct p <=? 0) = false ->
  _calc_size p equity price = inr n -> (1 <= n)%Z.
Proof.
  unfold _calc_size. intros ->.
  destruct (Py.truediv _ _) as [e | raw]; cbn; [discriminate |].
  destruct (Py.truediv _ _) as [e | q]; cbn; [discriminate |].
  destruct (Py.floor_float q) as [e | m]; cbn; [discriminate |].
  destruct (Py.floor _) as [e | k]; cbn; [discriminate |].
  intros [= <-]. lia.
Qed.

(** C9. With equity 10,000, risk fraction 1.0, price 100 and stop-loss
    fraction 0.001 (the class defaults for the two fractions), the stop
    distance is 0.1, the risk-based size is 100,000, the affordability cap is
    floor(10000/100) = 100, and the sizer returns 100. *)
Theorem calc_size_boundary_example :
  risk_per_trade default_params = 1 /\
  sl_pct default_params = 0.001 /\
  100 * sl_pct default_params = 0.1 /\
  Py.truediv (10000 * risk_per_trade default_params)
             (100 * sl_pct default_params) = inr 100000 /\
  (q <- Py.truediv 10000 100 ;; Py.floor_float q) = inr 100%Z /\
  _calc_size default_params 10000 100 = inr 100%Z.
Proof.
  repeat split; vm_compute; reflexivity.
Qed.

(** C2. At equity 50 and price 100 (default fractions) the affordability cap
    is floor(50/100) = 0 and the capped value [min(raw_risk_size,
    max_affordable)] is 0, yet [_calc_size] returns [max(1, 0) = 1], not the
    0 that would suppress the entry. *)
Theorem calc_size_unaffordable_returns_one :
  (q <- Py.truediv 50 100 ;; Py.floor_float q) = inr 0%Z /\
  (raw <- Py.truediv (50 * risk_per_trade default_params)
                     (100 * sl_pct default_params) ;;
   Py.ret (Py.min_float_int raw 0)) = inr (Py.NInt 0) /\
  _calc_size default_params 50 100 = inr 1%Z.
Proof.
  repeat split; vm_compute; reflexivity.
Qed.

End Sizer.

(** * The state machine *)

Section Machine.

Local Open Scope float_scope.

Variable p : Params.

Lemma cross_state_up (c : float) : cross_state c = CROSS_UP <-> (0 <? c) = true.
Proof.
  unfold cross_state, Py.gtb.
  destruct (0 <? c); [tauto |].
  destruct (c <? 0); split; discriminate.
Qed.

Lemma cross_state_down (c : float) : cross_state c = CROSS_DOWN <-> (c <? 0) = true.
Proof.
  unfold cross_state, Py.gtb.
  destruct (0 <? c) eqn:E.
  - rewrite (pos_not_ltb c E). split; discriminate.
  - destruct (c <? 0); split; try discriminate; reflexivity.
Qed.

Lemma buy_condition_iff (prev cur : Tick) :
  buy_condition p prev cur = true <-> entry_conditions p prev cur.
Proof.
  unfold buy_condition, entry_conditions, Py.gtb, Py.geb.
  rewrite cross_state_up, !andb_true_iff. tauto.
Qed.

(** [next] from a FLAT state, by cases on the entry conditions and the size. *)
Lemma next_flat (st : State) (prev cur : Tick) :
  in_trade st = false ->
  next p st prev cur =
    if buy_condition p prev cur then
      size <- _calc_size p (broker_value cur) (bar_close (bar cur)) ;;
      if (size <=? 0)%Z then Py.ret (stay_flat st, Hold)
      else Py.ret (entered (bar_close (bar cur)), EnterLong size)
    else Py.ret (stay_flat st, Hold).
Proof.
  intros H. unfold next, track_bars, stay_flat, entered. rewrite H. reflexivity.
Qed.

(** [next] from a LONG state whose entry price is recorded. *)
Lemma next_long (st : State) (prev cur : Tick) (entry : float) :
  in_trade st = true -> entry_price st = Some entry ->
  next p st prev cur =
    match exit_reason p entry (bars_in_trade st + 1) cur with
    | Some r => Py.ret ({| in_trade := false; entry_price := Some entry;
                           bars_in_trade := bars_in_trade st + 1 |}, Exit r)
    | None => Py.ret ({| in_trade := true; entry_price := Some entry;
                         bars_in_trade := bars_in_trade st + 1 |}, Hold)
    end.
Proof.
  intros H E. unfold next, track_bars. rewrite H, E. reflexivity.
Qed.

(** C4. When FLAT, [next] sends [ENTER_LONG n] exactly when the four entry
    conditions hold on the bar (crossover line above zero; MACD line below
    zero; RSI below the oversold threshold and above the previous bar's RSI;
    close at or above EMA * (1 - tolerance)) and the sizer returns a positive
    [n]; the state is then LONG.  If a condition fails, the state stays FLAT
    and nothing is sent. *)
Theorem enter_long_iff (st : State) (prev cur : Tick) :
  in_trade st = false ->
  (forall st' n,
     next p st prev cur = inr (st', EnterLong n) <->
     entry_conditions p prev cur /\
     _calc_size p (broker_value cur) (bar_close (bar cur)) = inr n /\
     (0 < n)%Z /\
     st' = entered (bar_close (bar cur))) /\
  (~ entry_conditions p prev cur ->
   next p st prev cur = inr (stay_flat st, Hold)) /\
  (forall st' r, next p st prev cur <> inr (st', Exit r)).
Proof.
  intros Hflat. rewrite (next_flat st prev cur Hflat).
  pose proof (buy_condition_iff prev cur) as Hbc.
  destruct (buy_condition p prev cur).
  - assert (Hc : entry_conditions p prev cur) by now apply Hbc.
    destruct (_calc_size _ _ _) as [e | size]; cbn;
      [| destruct (size <=? 0)%Z eqn:E; cbn;
         [apply Z.leb_le in E | apply Z.leb_gt in E]];
      (split; [intros st' n; split | split]);
      try discriminate; try (intros H; exfalso; now apply H).
    + intros (_ & H & _). discriminate.
    + intros (_ & [= ->] & H & _). lia.
    + intros [= <- <-]. auto.
    + intros (_ & [= ->] & _ & ->). reflexivity.
  - assert (Hc : ~ entry_conditions p prev cur).
    { intros H. apply Hbc in H. discriminate. }
    split; [intros st' n; split | split];
      try discriminate; try reflexivity.
    intros (H & _). contradiction.
Qed.

(** ** Exits *)

Lemma exit_reason_first_match (entry : float) (bars : Z) (cur : Tick) :
  exit_reason p entry bars cur = first_match (exit_rules p entry bars cur).
Proof. reflexivity. Qed.

(** C3. While LONG, the exit conditions are tried in the order take-profit,
    stop-loss, MACD cross-down, time-stop, and the first that holds gives the
    reason; none holding, the bar is held.  In particular a close that meets
    both the take-profit and the stop-loss threshold exits as take-profit. *)
Theorem exit_priority (st : State) (prev cur : Tick) (entry : float) :
  in_trade st = true ->
  entry_price st = Some entry ->
  let price := bar_close (bar cur) in
  let tp := (entry * (1 + tp_pct p) <=? price) in
  let sl := (price <=? entry * (1 - sl_pct p)) in
  let down := (cross cur <? 0) in
  let late := (max_bars_in_trade p <=? bars_in_trade st + 1)%Z in
  next p st prev cur =
    inr (match first_match (exit_rules p entry (bars_in_trade st + 1) cur) with
         | Some r => (exited st, Exit r)
         | None => (held st, Hold)
         end) /\
  (tp = true -> next p st prev cur = inr (exited st, Exit TakeProfit)) /\
  (tp = false -> sl = true ->
   next p st prev cur = inr (exited st, Exit StopLoss)) /\
  (tp = false -> sl = false -> down = true ->
   next p st prev cur = inr (exited st, Exit MacdCrossDown)) /\
  (tp = false -> sl = false -> down = false -> late = true ->
   next p st prev cur = inr (exited st, Exit MaxBars)) /\
  (tp = false -> sl = false -> down = false -> late = false ->
   next p st prev cur = inr (held st, Hold)) /\
  (tp = true -> sl = true ->
   next p st prev cur = inr (exited st, Exit TakeProfit)).
Proof.
  intros Hlong Hentry price tp sl down late.
  rewrite (next_long st prev cur entry Hlong Hentry).
  unfold exited, held. rewrite Hentry.
  unfold exit_reason, exit_rules, first_match, Py.geb.
  fold price. fold tp. fold sl. fold down. fold late.
  destruct tp, sl, down, late; repeat split; intros; try discriminate; reflexivity.
Qed.

(** ** The bar counter and the time-stop *)

Lemma next_long_quiet (st : State) (prev cur : Tick) (entry : float) :
  in_trade st = true -> entry_price st = Some entry ->
  no_earlier_exit p entry cur ->
  next p st prev cur =
    if (max_bars_in_trade p <=? bars_in_trade st + 1)%Z
    then inr (exited st, Exit MaxBars) else inr (held st, Hold).
Proof.
  intros Hlong Hentry (Htp & Hsl & Hdown).
  rewrite (next_long st prev cur entry Hlong Hentry).
  unfold exit_reason, Py.geb, exited, held.
  rewrite Htp, Hsl, Hdown, Hentry.
  destruct (max_bars_in_trade p <=? bars_in_trade st + 1)%Z; reflexivity.
Qed.

(** Bars without an earlier exit are held while the counter stays below
    [max_bars_in_trade]. *)
Lemma hold_run (entry : float) (bs : list Tick) :
  forall (st : State) (prev : Tick),
    in_trade st = true -> entry_price st = Some entry ->
    Forall (no_earlier_exit p entry) bs ->
    (bars_in_trade st + Z.of_nat (length bs) < max_bars_in_trade p)%Z ->
    exists st',
      run p st prev bs = inr (st', repeat Hold (length bs)) /\
      in_trade st' = true /\ entry_price st' = Some entry /\
      bars_in_trade st' = (bars_in_trade st + Z.of_nat (length bs))%Z.
Proof.
  induction bs as [| b bs IH]; intros st prev Hlong Hentry Hq Hlt.
  - exists st. cbn. repeat split; auto. lia.
  - inversion Hq as [| ? ? Hb Hbs]; subst.
    cbn [length] in Hlt. rewrite Nat2Z.inj_succ in Hlt.
    destruct (IH (held st) b) as (st' & Hrun & Hl & He & Hn); auto.
    { cbn. lia. }
    exists st'. cbn [run length repeat].
    rewrite (next_long_quiet st prev b entry Hlong Hentry Hb).
    replace (max_bars_in_trade p <=? bars_in_trade st + 1)%Z with false
      by (symmetry; apply Z.leb_gt; lia).
    cbn. rewrite Hrun. cbn. repeat split; auto.
    rewrite Hn. cbn. lia.
Qed.

(** The bar that brings the counter to [max_bars_in_trade] exits. *)
Lemma time_stop_run (entry : float) (bs : list Tick) (b : Tick) :
  forall (st : State) (prev : Tick),
    in_trade st = true -> entry_price st = Some entry ->
    Forall (no_earlier_exit p entry) (bs ++ [b]) ->
    (bars_in_trade st + Z.of_nat (length bs) + 1 = max_bars_in_trade p)%Z ->
    exists st',
      run p st prev (bs ++ [b])
      = inr (st', repeat Hold (length bs) ++ [Exit MaxBars]) /\
      in_trade st' = false /\
      bars_in_trade st' = max_bars_in_trade p.
Proof.
  induction bs as [| c bs IH]; intros st prev Hlong Hentry Hq Heq;
    inversion Hq as [| ? ? Hc Hrest]; subst.
  - cbn in Heq. exists (exited st). cbn.
    rewrite (next_long_quiet st prev b entry Hlong Hentry Hc).
    replace (max_bars_in_trade p <=? bars_in_trade st + 1)%Z with true
      by (symmetry; apply Z.leb_le; lia).
    cbn. repeat split. lia.
  - cbn [length] in Heq. rewrite Nat2Z.inj_succ in Heq.
    destruct (IH (held st) c) as (st' & Hrun & Hl & Hn); auto.
    { cbn. lia. }
    exists st'. cbn [run length repeat app].
    rewrite (next_long_quiet st prev c entry Hlong Hentry Hc).
    replace (max_bars_in_trade p <=? bars_in_trade st + 1)%Z with false
      by (symmetry; apply Z.leb_gt; lia).
    cbn. rewrite Hrun. cbn. repeat split; auto.
Qed.

(** Every bar processed while LONG adds one to the counter. *)
Lemma next_counts (st st' : State) (prev cur : Tick) (d : Decision) :
  in_trade st = true -> next p st prev cur = inr (st', d) ->
  bars_in_trade st' = (bars_in_trade st + 1)%Z.
Proof.
  intros Hlong. unfold next, track_bars. rewrite Hlong. cbn.
  destruct (entry_price st) as [entry |]; [| discriminate].
  destruct (exit_reason p entry _ cur); intros [= <- _]; reflexivity.
Qed.

(** C7. The counter is 0 on the bar of entry and grows by exactly 1 on each
    later bar processed while LONG.  On such a bar with no take-profit,
    stop-loss or cross-down exit, the time-stop fires exactly when the counter
    has reached [max_bars_in_trade]: the bars after entry are held as long as
    the counter is below it, and the bar on which the counter equals it exits
    with the time-stop reason. *)
Theorem bars_held_and_time_stop
  (st st1 : State) (prev e : Tick) (n : Z) :
  next p st prev e = inr (st1, EnterLong n) ->
  let entry := bar_close (bar e) in
  bars_in_trade st1 = 0%Z /\
  (forall s s' pv t d,
     in_trade s = true -> next p s pv t = inr (s', d) ->
     bars_in_trade s' = (bars_in_trade s + 1)%Z) /\
  (forall s s' pv t,
     in_trade s = true -> entry_price s = Some entry ->
     no_earlier_exit p entry t ->
     (next p s pv t = inr (s', Exit MaxBars) <->
      (max_bars_in_trade p <= bars_in_trade s + 1)%Z /\ s' = exited s)) /\
  (forall bs,
     Forall (no_earlier_exit p entry) bs ->
     (Z.of_nat (length bs) < max_bars_in_trade p)%Z ->
     exists st2,
       run p st1 e bs = inr (st2, repeat Hold (length bs)) /\
       in_trade st2 = true /\
       bars_in_trade st2 = Z.of_nat (length bs)) /\
  (forall bs b,
     Forall (no_earlier_exit p entry) (bs ++ [b]) ->
     (Z.of_nat (length bs) + 1 = max_bars_in_trade p)%Z ->
     exists st3,
       run p st1 e (bs ++ [b])
       = inr (st3, repeat Hold (length bs) ++ [Exit MaxBars]) /\
       in_trade st3 = false /\
       bars_in_trade st3 = max_bars_in_trade p).
Proof.
  intros Hnext entry.
  assert (Hst1 : st1 = entered entry).
  { destruct (in_trade st) eqn:Hin.
    - revert Hnext. unfold next. rewrite Hin. cbn.
      destruct (entry_price st) as [x |]; [| discriminate].
      destruct (exit_reason p x _ e); discriminate.
    - rewrite (next_flat st prev e Hin) in Hnext.
      destruct (buy_condition p prev e); [| discriminate].
      destruct (_calc_size _ _ _) as [err | size]; [discriminate |].
      cbn in Hnext. destruct (size <=? 0)%Z; [discriminate |].
      now injection Hnext as <- _. }
  subst st1. split; [reflexivity |].
  split; [intros s s' pv t d; apply next_counts |].
  split; [| split].
  - intros s s' pv t Hlong Hentry Hq.
    rewrite (next_long_quiet s pv t entry Hlong Hentry Hq).
    destruct (max_bars_in_trade p <=? bars_in_trade s + 1)%Z eqn:E.
    + apply Z.leb_le in E. split.
      * intros [= <-]. auto.
      * intros (_ & ->). reflexivity.
    + apply Z.leb_gt in E. split; [discriminate | lia].
  - intros bs Hq Hlt.
    destruct (hold_run entry bs (entered entry) e) as (st2 & Hr & Hl & _ & Hn);
      auto.
    exists st2. repeat split; auto.
  - intros bs b Hq Heq.
    destruct (time_stop_run entry bs b (entered entry) e) as (st3 & Hr & Hl & Hn);
      auto.
    exists st3. repeat split; auto.
Qed.

(** ** The position invariant *)

(** What an entry does to the state. *)
Lemma next_enter (st st' : State) (prev cur : Tick) (n : Z) :
  next p st prev cur = inr (st', EnterLong n) ->
  in_trade st = false /\ in_trade st' = true /\
  entry_price st' = Some (bar_close (bar cur)).
Proof.
  unfold next. destruct (in_trade st); cbn.
  - destruct (entry_price st) as [x |]; [| discriminate].
    destruct (exit_reason p x _ cur); discriminate.
  - destruct (buy_condition p prev cur); [| discriminate].
    destruct (_calc_size _ _ _) as [err | size]; [discriminate |].
    cbn. destruct (size <=? 0)%Z; [discriminate |].
    intros [= <- _]. auto.
Qed.

(** What an exit does to the state. *)
Lemma next_exit (st st' : State) (prev cur : Tick) (r : ExitReason) :
  next p st prev cur = inr (st', Exit r) ->
  in_trade st = true /\ in_trade st' = false /\
  entry_price st' = entry_price st /\ entry_price st' <> None.
Proof.
  unfold next. destruct (in_trade st); cbn.
  - destruct (entry_price st) as [x |] eqn:E; [| discriminate].
    destruct (exit_reason p x _ cur); [| discriminate].
    intros [= <- _]. cbn. repeat split. discriminate.
  - destruct (buy_condition p prev cur); [| discriminate].
    destruct (_calc_size _ _ _) as [err | size]; [discriminate |].
    cbn. destruct (size <=? 0)%Z; discriminate.
Qed.

Lemma next_keeps_invariant (st st' : State) (prev cur : Tick) (d : Decision) :
  long_has_entry st -> next p st prev cur = inr (st', d) -> long_has_entry st'.
Proof.
  unfold long_has_entry, next. intros Hinv.
  destruct (in_trade st); cbn.
  - destruct Hinv as [x Hx]; [reflexivity |]. rewrite Hx.
    destruct (exit_reason p x _ cur); intros [= <- _]; cbn;
      [discriminate | eauto].
  - destruct (buy_condition p prev cur).
    + destruct (_calc_size _ _ _) as [err | size]; [discriminate |].
      cbn. destruct (size <=? 0)%Z; intros [= <- _]; cbn;
        [discriminate | eauto].
    + intros [= <- _]. cbn. discriminate.
Qed.

Lemma run_keeps_invariant (ticks : list Tick) :
  forall (st st' : State) (prev : Tick) (ds : list Decision),
    long_has_entry st -> run p st prev ticks = inr (st', ds) ->
    long_has_entry st'.
Proof.
  induction ticks as [| t ticks IH]; intros st st' prev ds Hinv; cbn.
  - now intros [= <- _].
  - destruct (next p st prev t) as [err | [s d]] eqn:Hn; [discriminate |].
    cbn. destruct (run p s t ticks) as [err | [s' ds']] eqn:Hr; [discriminate |].
    cbn. intros [= <- _].
    eapply IH; [| exact Hr]. eapply next_keeps_invariant; eauto.
Qed.

(** C1 (as the code has it). At every point of a run, LONG implies that
    [entry_price] is set: an entry is the only step from FLAT to LONG and
    records the bar's close, and an exit goes from LONG to FLAT leaving
    [entry_price] as it was (it is not cleared). *)
Theorem long_implies_entry_price
  (prev : Tick) (ticks : list Tick) (st : State) (ds : list Decision) :
  run p init_state prev ticks = inr (st, ds) ->
  (in_trade st = true -> exists entry, entry_price st = Some entry) /\
  (forall s s' pv t n,
     next p s pv t = inr (s', EnterLong n) ->
     in_trade s = false /\ in_trade s' = true /\
     entry_price s' = Some (bar_close (bar t))) /\
  (forall s s' pv t d,
     in_trade s = false -> next p s pv t = inr (s', d) ->
     in_trade s' = true -> exists n, d = EnterLong n) /\
  (forall s s' pv t r,
     next p s pv t = inr (s', Exit r) ->
     in_trade s = true /\ in_trade s' = false /\
     entry_price s' = entry_price s /\ entry_price s' <> None).
Proof.
  intros Hrun. split; [| split; [| split]].
  - apply (run_keeps_invariant ticks init_state st prev ds); [| exact Hrun].
    intros H. discriminate.
  - intros s s' pv t n. apply next_enter.
  - intros s s' pv t d Hflat. rewrite (next_flat s pv t Hflat).
    destruct (buy_condition p pv t).
    + destruct (_calc_size _ _ _) as [err | size]; [discriminate |].
      cbn. destruct (size <=? 0)%Z; intros [= <- <-]; cbn;
        [discriminate | eauto].
    + intros [= <- _]. discriminate.
  - intros s s' pv t r. apply next_exit.
Qed.

(** ** Warm-up *)

Lemma buy_condition_warming_up (prev cur : Tick) :
  warming_up cur = true -> cross_needs_inputs cur ->
  buy_condition p prev cur = false.
Proof.
  unfold warming_up, cross_needs_inputs, buy_condition, Py.gtb, Py.geb.
  intros Hw Hc.
  destruct (is_nan (ema cur)) eqn:Hema.
  { rewrite (leb_nan_l _ _ (mul_nan_l _ _ Hema)). apply andb_false_r. }
  destruct (is_nan (macd cur)) eqn:Hmacd.
  { rewrite (ltb_nan_l _ 0 Hmacd), andb_false_r. reflexivity. }
  destruct (is_nan (signal cur)) eqn:Hsig.
  { rewrite (ltb_nan_r 0 _ (Hc eq_refl)). reflexivity. }
  cbn in Hw.
  rewrite (ltb_nan_l _ (rsi_oversold p) Hw), andb_false_r. reflexivity.
Qed.

Lemma run_warming_up (ticks : list Tick) :
  forall (st : State) (prev : Tick),
    in_trade st = false ->
    Forall (fun t => warming_up t = true) ticks ->
    Forall cross_needs_inputs ticks ->
    exists st',
      run p st prev ticks = inr (st', repeat Hold (length ticks)) /\
      in_trade st' = false.
Proof.
  induction ticks as [| t ticks IH]; intros st prev Hflat Hw Hc.
  - exists st. split; [reflexivity | exact Hflat].
  - inversion Hw as [| ? ? Hwt Hws]; inversion Hc as [| ? ? Hct Hcs]; subst.
    destruct (IH (stay_flat st) t eq_refl Hws Hcs) as (st' & Hrun & Hst').
    exists st'. cbn [run length repeat].
    rewrite (next_flat st prev t Hflat).
    rewrite (buy_condition_warming_up prev t Hwt Hct).
    cbn. rewrite Hrun. cbn. split; [reflexivity | exact Hst'].
Qed.

(** C5. On a run whose bars all come before warm-up completes (on each, the
    EMA, the MACD line, its signal line or the RSI has no value yet), every
    bar yields HOLD: no ENTER_LONG and no EXIT, whatever the prices are. *)
Theorem no_decision_before_warm_up (prev : Tick) (ticks : list Tick) :
  Forall (fun t => warming_up t = true) ticks ->
  Forall cross_needs_inputs ticks ->
  exists st,
    run p init_state prev ticks = inr (st, repeat Hold (length ticks)) /\
    in_trade st = false.
Proof.
  intros Hw Hc. now apply run_warming_up.
Qed.

(** ** Bars are not validated *)

(** C8 (as the code has it). [next] validates nothing about a bar.  It never
    reads open, high, low or volume: its result is the same whatever they
    hold.  A bar whose close is NaN raises no error: from FLAT it is held and
    the state stays FLAT, and from LONG only the cross-down and time-stop
    exits can fire. *)
Theorem bars_are_not_validated (st : State) (prev cur : Tick) :
  (forall o h l v,
     next p st prev (with_ohlv cur o h l v) = next p st prev cur) /\
  (is_nan (bar_close (bar cur)) = true ->
   in_trade st = false ->
   next p st prev cur = inr (stay_flat st, Hold)) /\
  (is_nan (bar_close (bar cur)) = true ->
   in_trade st = true ->
   forall entry, entry_price st = Some entry ->
   next p st prev cur =
     inr (if cross cur <? 0 then (exited st, Exit MacdCrossDown)
          else if (max_bars_in_trade p <=? bars_in_trade st + 1)%Z
               then (exited st, Exit MaxBars)
               else (held st, Hold))).
Proof.
  split; [| split].
  - intros o h l v. reflexivity.
  - intros Hnan Hflat. rewrite (next_flat st prev cur Hflat).
    unfold buy_condition, Py.geb.
    rewrite (leb_nan_r _ _ Hnan), andb_false_r. reflexivity.
  - intros Hnan Hlong entry Hentry.
    rewrite (next_long st prev cur entry Hlong Hentry).
    unfold exit_reason, Py.geb, exited, held.
    rewrite (leb_nan_r _ _ Hnan), (leb_nan_l _ _ Hnan), Hentry.
    destruct (cross cur <? 0); [reflexivity |].
    destruct (max_bars_in_trade p <=? bars_in_trade st + 1)%Z; reflexivity.
Qed.

End Machine.

(** * The crossover detector *)

Section Detector.

Local Open Scope float_scope.

(** C6. The detector reports CROSS_UP exactly when both snapshots are ready
    and the difference macd_line - macd_signal goes from <= 0 to > 0,
    CROSS_DOWN exactly when it goes from >= 0 to < 0, and NONE otherwise, in
    particular when a snapshot is missing.  On the differences
    -0.5, -0.1, +0.2 it reports NONE, NONE, CROSS_UP. *)
Theorem crossover_detector_contract (prev cur : Snapshot) :
  (crossover_detector prev cur = CROSS_UP <->
   exists pl ps cl cs,
     prev = Some (pl, ps) /\ cur = Some (cl, cs) /\
     (pl - ps <=? 0) = true /\ (0 <? cl - cs) = true) /\
  (crossover_detector prev cur = CROSS_DOWN <->
   exists pl ps cl cs,
     prev = Some (pl, ps) /\ cur = Some (cl, cs) /\
     (0 <=? pl - ps) = true /\ (cl - cs <? 0) = true) /\
  (prev = None \/ cur = None -> crossover_detector prev cur = NONE) /\
  map (fun s => match s with Some (l, g) => l - g | None => nan end)
      [Some (-0.5, 0); Some (-0.1, 0); Some (0.2, 0)] = [-0.5; -0.1; 0.2] /\
  detect None [Some (-0.5, 0); Some (-0.1, 0); Some (0.2, 0)]
  = [NONE; NONE; CROSS_UP].
Proof.
  split; [| split; [| split; [| split; reflexivity]]].
  - split.
    + destruct prev as [[pl ps] |], cur as [[cl cs] |]; cbn; try discriminate.
      destruct (pl - ps <=? 0) eqn:Ep, (0 <? cl - cs) eqn:Ec; cbn;
        try (destruct (_ && _); discriminate).
      intros _. exists pl, ps, cl, cs. auto.
    + intros (pl & ps & cl & cs & -> & -> & Hp & Hc). cbn.
      rewrite Hp, Hc. reflexivity.
  - split.
    + destruct prev as [[pl ps] |], cur as [[cl cs] |]; cbn; try discriminate.
      destruct ((pl - ps <=? 0) && (0 <? cl - cs)); [discriminate |].
      destruct (0 <=? pl - ps) eqn:Ep, (cl - cs <? 0) eqn:Ec; cbn;
        try discriminate.
      intros _. exists pl, ps, cl, cs. auto.
    + intros (pl & ps & cl & cs & -> & -> & Hp & Hc). cbn.
      rewrite Hp, Hc.
      destruct (0 <? cl - cs) eqn:E.
      * rewrite (pos_not_ltb _ E) in Hc. discriminate.
      * rewrite andb_false_r. reflexivity.
  - intros [-> | ->]; [reflexivity |].
    destruct prev as [[pl ps] |]; reflexivity.
Qed.

End Detector.

(** * The theorems on concrete runs *)

Section Instances.

Local Open Scope float_scope.

(** An entry followed by a take-profit exit: the state is FLAT again and
    [entry_price] still holds the entry close, so "LONG if and only if
    [entry_price] is set" fails after the first exit. *)
Lemma flat_with_entry_price_set :
  run default_params init_state (quiet_tick 99.6 10000)
      [signal_tick 99.6 10000; quiet_tick 100 10000]
  = inr ({| in_trade := false; entry_price := Some 99.6; bars_in_trade := 1 |},
         [EnterLong 100; Exit TakeProfit]) /\
  ~ (in_trade {| in_trade := false; entry_price := Some 99.6;
                 bars_in_trade := 1 |} = true <->
     entry_price {| in_trade := false; entry_price := Some 99.6;
                    bars_in_trade := 1 |} <> None).
Proof.
  split; [vm_compute; reflexivity |].
  cbn. intros [_ H]. assert (E : false = true) by (apply H; discriminate).
  discriminate.
Qed.

(** [long_implies_entry_price] on the run that ends right after an entry. *)
Lemma long_implies_entry_price_witness :
  run default_params init_state (quiet_tick 99.6 10000)
      [signal_tick 99.6 10000]
  = inr (entered 99.6, [EnterLong 100]) /\
  exists entry, entry_price (entered 99.6) = Some entry.
Proof.
  assert (Hrun : run default_params init_state (quiet_tick 99.6 10000)
                     [signal_tick 99.6 10000]
                 = inr (entered 99.6, [EnterLong 100]))
    by (vm_compute; reflexivity).
  split; [exact Hrun |].
  destruct (long_implies_entry_price default_params _ _ _ _ Hrun) as (H & _).
  apply H. reflexivity.
Defined.

(** [enter_long_iff] on the signal bar at close 99.6 and equity 10,000. *)
Lemma enter_long_iff_witness :
  in_trade init_state = false /\
  next default_params init_state (quiet_tick 99.6 10000)
       (signal_tick 99.6 10000)
  = inr (entered 99.6, EnterLong 100).
Proof.
  split; [reflexivity |].
  destruct (enter_long_iff default_params init_state (quiet_tick 99.6 10000)
              (signal_tick 99.6 10000) eq_refl) as (H & _).
  apply H. repeat split; vm_compute; reflexivity.
Defined.

(** [exit_priority] on a close of 99.85 after an entry at 100 under
    [overlap_params]: the take-profit threshold is 99.8 and the stop-loss
    threshold 99.9, both are met, and the exit is a take-profit. *)
Lemma exit_priority_witness :
  (100 * (1 + tp_pct overlap_params) <=? 99.85) = true /\
  (99.85 <=? 100 * (1 - sl_pct overlap_params)) = true /\
  next overlap_params (entered 100) (signal_tick 100 10000)
       (quiet_tick 99.85 10000)
  = inr (exited (entered 100), Exit TakeProfit).
Proof.
  split; [vm_compute; reflexivity |].
  split; [vm_compute; reflexivity |].
  destruct (exit_priority overlap_params (entered 100) (signal_tick 100 10000)
              (quiet_tick 99.85 10000) 100 eq_refl eq_refl)
    as (_ & _ & _ & _ & _ & _ & H).
  apply H; vm_compute; reflexivity.
Defined.

(** [bars_held_and_time_stop] under [short_params]: after the entry, two
    bars at the entry close are held and the third exits on the time-stop. *)
Lemma bars_held_and_time_stop_witness :
  next short_params init_state (quiet_tick 99.6 10000) (signal_tick 99.6 10000)
  = inr (entered 99.6, EnterLong 100) /\
  exists st3,
    run short_params (entered 99.6) (signal_tick 99.6 10000)
        ([quiet_tick 99.6 10000; quiet_tick 99.6 10000]
         ++ [quiet_tick 99.6 10000])
    = inr (st3, repeat Hold 2 ++ [Exit MaxBars]) /\
    in_trade st3 = false /\
    bars_in_trade st3 = 3%Z.
Proof.
  assert (Hnext : next short_params init_state (quiet_tick 99.6 10000)
                       (signal_tick 99.6 10000)
                  = inr (entered 99.6, EnterLong 100))
    by (vm_compute; reflexivity).
  split; [exact Hnext |].
  destruct (bars_held_and_time_stop short_params _ _ _ _ _ Hnext)
    as (_ & _ & _ & _ & H).
  apply (H [quiet_tick 99.6 10000; quiet_tick 99.6 10000]
           (quiet_tick 99.6 10000)).
  - repeat (constructor; [repeat split; vm_compute; reflexivity |]).
    constructor.
  - reflexivity.
Defined.

(** [no_decision_before_warm_up] on two bars without indicator values. *)
Lemma no_decision_before_warm_up_witness :
  exists st,
    run default_params init_state (cold_tick 100)
        [cold_tick 50; cold_tick 200]
    = inr (st, repeat Hold 2) /\
    in_trade st = false.
Proof.
  apply (no_decision_before_warm_up default_params (cold_tick 100)
           [cold_tick 50; cold_tick 200]).
  - repeat (constructor; [vm_compute; reflexivity |]). constructor.
  - repeat (constructor; [intros _; vm_compute; reflexivity |]). constructor.
Defined.

(** A malformed bar is processed like any other: it is held, and the run
    goes on to enter on the next bar. *)
Lemma malformed_bar_is_processed :
  malformed_bar (bar bad_tick) = true /\
  run default_params init_state (quiet_tick 99.6 10000)
      [bad_tick; signal_tick 99.6 10000]
  = inr (entered 99.6, [Hold; EnterLong 100]).
Proof.
  split; vm_compute; reflexivity.
Qed.

(** [bars_are_not_validated] on a bar whose close is NaN, from FLAT. *)
Lemma bars_are_not_validated_witness :
  is_nan (bar_close (bar nan_close_tick)) = true /\
  next default_params init_state (quiet_tick 99.6 10000) nan_close_tick
  = inr (stay_flat init_state, Hold).
Proof.
  split; [reflexivity |].
  destruct (bars_are_not_validated default_params init_state
              (quiet_tick 99.6 10000) nan_close_tick) as (_ & H & _).
  apply H; reflexivity.
Defined.

End Instances.

(** * More on the position sizer *)

Section SizerBounds.

Local Open Scope float_scope.

Lemma eqb_zero_leb (x : float) : (x =? 0) = true -> (x <=? 0) = true.
Proof.
  rewrite eqb_spec, leb_spec. unfold SFeqb, SFleb.
  destruct (SFcompare _ _) as [[| |] |]; intros H; try discriminate; reflexivity.
Qed.

(** A quotient by zero is an infinity or NaN. *)
Lemma div_by_zero_not_finite (x y : float) :
  (y =? 0) = true -> Py.isfinite (x / y) = false.
Proof.
  unfold Py.isfinite. rewrite eqb_spec, div_spec.
  change (Prim2SF 0) with (S754_zero false).
  destruct (Prim2SF y) as [s | s | | s m e]; try destruct s; cbn;
    try discriminate; intros _;
    destruct (Prim2SF x) as [t | t | | t m' e']; reflexivity.
Qed.

(** A product of a zero and a finite number is a zero. *)
Lemma mul_zero_finite_leb (x y : float) :
  (x =? 0) = true -> Py.isfinite y = true -> (x * y <=? 0) = true.
Proof.
  unfold Py.isfinite. rewrite eqb_spec, leb_spec, mul_spec.
  change (Prim2SF 0) with (S754_zero false).
  destruct (Prim2SF x) as [s | s | | s m e]; try destruct s; cbn;
    try discriminate; intros _;
    destruct (Prim2SF y) as [t | t | | t m' e']; try discriminate;
    reflexivity.
Qed.

Lemma floor_float_isfinite (x : float) (n : Z) :
  Py.floor_float x = inr n -> Py.isfinite x = true.
Proof.
  unfold Py.floor_float, Py.isfinite.
  destruct (Prim2SF x); try discriminate; reflexivity.
Qed.

(** [math.floor] raises nothing but [ValueError] and [OverflowError]. *)
Lemma floor_float_raises (x : float) (e : Py.exn) :
  Py.floor_float x = inl e -> e = Py.ValueError \/ e = Py.OverflowError.
Proof.
  unfold Py.floor_float.
  destruct (Prim2SF x) as [s | s | | s m ex]; cbn;
    try destruct (0 <=? ex)%Z; intros [= <-] || discriminate; auto.
Qed.

(** How the exact comparison [m < x] relates [m] to the floor of [x]. *)
Lemma int_lt_float_floor (x : float) (m k : Z) :
  Py.floor_float x = inr k ->
  (Py.int_lt_float m x = true -> (m <= k)%Z) /\
  (Py.int_lt_float m x = false -> (k <= m)%Z).
Proof.
  unfold Py.floor_float, Py.int_lt_float.
  destruct (Prim2SF x) as [s | s | | s mx e]; cbn; try discriminate.
  - intros [= <-]. split; intros H;
      [apply Z.ltb_lt in H | apply Z.ltb_ge in H]; lia.
  - destruct (0 <=? e)%Z eqn:He; intros [= <-]; split; intros H;
      try (apply Z.ltb_lt in H); try (apply Z.ltb_ge in H); try lia.
    + apply Z.leb_gt in He.
      assert (Hd : (0 < 2 ^ (- e))%Z) by (apply Z.pow_pos_nonneg; lia).
      apply Z.div_le_lower_bound; lia.
    + apply Z.leb_gt in He.
      assert (Hd : (0 < 2 ^ (- e))%Z) by (apply Z.pow_pos_nonneg; lia).
      apply Z.div_le_upper_bound; lia.
Qed.

(** The floor of [min(x, m)] is the minimum of the floor of [x] and [m]. *)
Lemma floor_min_closed (x : float) (m k : Z) :
  Py.floor_float x = inr k ->
  Py.floor (Py.min_float_int x m) = inr (Z.min k m).
Proof.
  intros Hk. destruct (int_lt_float_floor x m k Hk) as [Hlt Hge].
  unfold Py.min_float_int.
  destruct (Py.int_lt_float m x); cbn [Py.floor].
  - unfold Py.ret. f_equal. specialize (Hlt eq_refl). lia.
  - rewrite Hk. f_equal. specialize (Hge eq_refl). lia.
Qed.

(** The floor of [min(x, m)], when there is one, is at most [m]. *)
Lemma floor_min_le (x : float) (m k : Z) :
  Py.floor (Py.min_float_int x m) = inr k -> (k <= m)%Z.
Proof.
  unfold Py.min_float_int.
  destruct (Py.int_lt_float m x) eqn:Hlt; cbn [Py.floor].
  - intros [= <-]. lia.
  - intros Hk. now apply (int_lt_float_floor x m k Hk).
Qed.

(** X1. Past the stop-distance guard, when the risk-based size and the
    quotient equity / price have floors [k] and [m], the sizer returns
    [max(1, min(k, m))]: flooring after the mixed float/int [min] is the same
    as taking the integer minimum of the two floors. *)
Theorem calc_size_closed_form (p : Params) (equity price : float) (k m : Z) :
  (price * sl_pct p <=? 0) = false ->
  Py.floor_float (equity * risk_per_trade p / (price * sl_pct p)) = inr k ->
  Py.floor_float (equity / price) = inr m ->
  _calc_size p equity price = inr (Z.max 1 (Z.min k m)).
Proof.
  intros Hguard Hk Hm.
  assert (Hsl : (price * sl_pct p =? 0) = false).
  { destruct (price * sl_pct p =? 0) eqn:E; [| reflexivity].
    rewrite (eqb_zero_leb _ E) in Hguard. discriminate. }
  assert (Hprice : (price =? 0) = false).
  { destruct (price =? 0) eqn:E; [| reflexivity].
    pose proof (floor_float_isfinite _ _ Hm) as Hfin.
    rewrite (div_by_zero_not_finite equity price E) in Hfin. discriminate. }
  unfold _calc_size, Py.truediv. rewrite Hguard, Hsl, Hprice. cbn.
  rewrite Hm. cbn. rewrite (floor_min_closed _ m k Hk). reflexivity.
Qed.

(** X2. A size the sizer returns is never negative and never above
    [max(1, floor(equity / price))]; so whenever at least one unit is
    affordable, the size is at most the affordable number of units. *)
Theorem calc_size_within_affordable
  (p : Params) (equity price : float) (n m : Z) :
  _calc_size p equity price = inr n ->
  Py.floor_float (equity / price) = inr m ->
  (0 <= n <= Z.max 1 m)%Z /\ ((1 <= m)%Z -> (n <= m)%Z).
Proof.
  unfold _calc_size, Py.truediv. intros Hn Hm.
  assert (Hle : (0 <= n <= Z.max 1 m)%Z); [| split; [exact Hle | lia]].
  destruct (price * sl_pct p <=? 0).
  - injection Hn as <-. lia.
  - destruct (price * sl_pct p =? 0); [discriminate |].
    destruct (price =? 0); [discriminate |].
    cbn in Hn. rewrite Hm in Hn. cbn in Hn.
    destruct (Py.floor _) as [e | k] eqn:Hk; [discriminate |].
    injection Hn as <-. apply floor_min_le in Hk. lia.
Qed.

(** X3. With a finite stop-loss fraction the sizer has no division by zero:
    a zero price or a zero stop distance is caught by the guard, and the only
    exceptions left are those of [math.floor] on NaN or an infinity.  With an
    infinite fraction a zero price does raise [ZeroDivisionError]. *)
Theorem calc_size_raises_only_from_floor
  (p : Params) (equity price : float) (e : Py.exn) :
  Py.isfinite (sl_pct p) = true ->
  _calc_size p equity price = inl e ->
  (e = Py.ValueError \/ e = Py.OverflowError) /\
  _calc_size inf_stop_params 100 0 = inl Py.ZeroDivisionError.
Proof.
  intros Hfin He. split; [| vm_compute; reflexivity].
  revert He. unfold _calc_size, Py.truediv.
  destruct (price * sl_pct p <=? 0) eqn:Hguard; [discriminate |].
  destruct (price * sl_pct p =? 0) eqn:Hsl.
  { rewrite (eqb_zero_leb _ Hsl) in Hguard. discriminate. }
  destruct (price =? 0) eqn:Hprice.
  { rewrite (mul_zero_finite_leb price (sl_pct p) Hprice Hfin) in Hguard.
    discriminate. }
  cbn. destruct (Py.floor_float (equity / price)) as [e1 | m] eqn:Hm; cbn.
  { intros [= <-]. now apply (floor_float_raises _ _ Hm). }
  unfold Py.min_float_int.
  destruct (Py.int_lt_float _ _); cbn; [discriminate |].
  destruct (Py.floor_float (equity * risk_per_trade p / (price * sl_pct p)))
    as [e2 | k] eqn:Hk; cbn; [| discriminate].
  intros [= <-]. now apply (floor_float_raises _ _ Hk).
Qed.

End SizerBounds.

(** * When the position sizer returns *)

Section SizerReturns.

Local Open Scope float_scope.

(** An integer is below nothing but numbers above minus infinity. *)
Lemma int_lt_float_above (m : Z) (x : float) :
  Py.int_lt_float m x = true -> (neg_infinity <? x) = true.
Proof.
  unfold Py.int_lt_float. rewrite ltb_spec.
  change (Prim2SF neg_infinity) with (S754_infinity true).
  destruct (Prim2SF x) as [s | s | | s mx e]; try destruct s; cbn;
    intros H; try discriminate H; reflexivity.
Qed.

(** A number that has a floor is above minus infinity. *)
Lemma floor_float_above (x : float) (k : Z) :
  Py.floor_float x = inr k -> (neg_infinity <? x) = true.
Proof.
  unfold Py.floor_float. rewrite ltb_spec.
  change (Prim2SF neg_infinity) with (S754_infinity true).
  destruct (Prim2SF x) as [s | s | | s mx e]; try destruct s; cbn;
    intros H; try discriminate H; reflexivity.
Qed.

(** A number above minus infinity that no integer is below has a floor. *)
Lemma floor_float_of_above (m : Z) (x : float) :
  (neg_infinity <? x) = true -> Py.int_lt_float m x = false ->
  exists k, Py.floor_float x = inr k.
Proof.
  unfold Py.floor_float, Py.int_lt_float. rewrite ltb_spec.
  change (Prim2SF neg_infinity) with (S754_infinity true).
  destruct (Prim2SF x) as [s | s | | s mx e]; try destruct s; cbn;
    intros H1 H2; try discriminate H1; try discriminate H2;
    try destruct (0 <=? e)%Z; eexists; reflexivity.
Qed.

(** With a stop distance above zero a size can fail to be returned: on a NaN
    equity [math.floor] raises [ValueError], and where equity / price
    overflows it raises [OverflowError]. *)
Lemma calc_size_can_raise :
  (0 <? 100 * sl_pct default_params) = true /\
  _calc_size default_params nan 100 = inl Py.ValueError /\
  (0 <? 1e-308 * sl_pct default_params) = true /\
  _calc_size default_params 1e308 1e-308 = inl Py.OverflowError /\
  ~ (forall equity price,
       (0 <? price * sl_pct default_params) = true ->
       exists n, _calc_size default_params equity price = inr n /\ (1 <= n)%Z).
Proof.
  repeat split; try (vm_compute; reflexivity).
  intros H. destruct (H nan 100 eq_refl) as (n & Hn & _).
  vm_compute in Hn. discriminate Hn.
Qed.

(** C10 (as the code has it). Whenever the stop distance [price * sl_pct] is
    above zero, the sizer either returns a size of at least 1 or raises from
    [math.floor] ([ValueError] or [OverflowError]); it returns exactly when
    equity / price is finite and the risk-based size is above minus infinity
    (so not NaN).  It returns 0 only when the stop distance is [<= 0].  With
    equity 50 and price 100 the cap floor(50/100) is 0, the size is 1, and
    [next] sends [ENTER_LONG 1] although one unit costs more than the
    equity. *)
Theorem calc_size_returns_at_least_one (p : Params) (equity price : float) :
  (0 <? price * sl_pct p) = true ->
  (forall n, _calc_size p equity price = inr n -> (1 <= n)%Z) /\
  ((exists n, _calc_size p equity price = inr n) <->
   Py.isfinite (equity / price) = true /\
   (neg_infinity <? equity * risk_per_trade p / (price * sl_pct p)) = true) /\
  (forall e,
     _calc_size p equity price = inl e ->
     e = Py.ValueError \/ e = Py.OverflowError) /\
  (forall equity' price',
     _calc_size p equity' price' = inr 0%Z ->
     (price' * sl_pct p <=? 0) = true) /\
  (q <- Py.truediv 50 100 ;; Py.floor_float q) = inr 0%Z /\
  _calc_size default_params 50 100 = inr 1%Z /\
  next default_params init_state (quiet_tick 100 50) (signal_tick 100 50)
  = inr ({| in_trade := true; entry_price := Some 100; bars_in_trade := 0 |},
         EnterLong 1).
Proof.
  intros Hpos.
  assert (Hguard : (price * sl_pct p <=? 0) = false) by now apply pos_not_leb.
  assert (Hsl : (price * sl_pct p =? 0) = false) by now apply pos_not_eqb.
  assert (Hprice : (price =? 0) = false).
  { destruct (price =? 0) eqn:E; [| reflexivity].
    rewrite (mul_zero_not_pos price (sl_pct p) E) in Hpos. discriminate. }
  split; [| split; [| split; [| split;
    [| repeat split; vm_compute; reflexivity]]]].
  - intros n. now apply calc_size_past_guard.
  - unfold _calc_size, Py.truediv. rewrite Hguard, Hsl, Hprice. cbn.
    split.
    + intros [n Hn]. revert Hn.
      destruct (Py.floor_float (equity / price)) as [e | m] eqn:Hm;
        [discriminate |].
      cbn. unfold Py.min_float_int.
      destruct (Py.int_lt_float m _) eqn:Hlt; cbn.
      * intros _. split;
          [exact (floor_float_isfinite _ _ Hm)
          | exact (int_lt_float_above _ _ Hlt)].
      * destruct (Py.floor_float
                    (equity * risk_per_trade p / (price * sl_pct p)))
          as [e | k] eqn:Hk; [discriminate |].
        intros _. split;
          [exact (floor_float_isfinite _ _ Hm)
          | exact (floor_float_above _ _ Hk)].
    + intros [Hq Hraw].
      destruct (floor_float_finite _ Hq) as [m Hm]. rewrite Hm. cbn.
      unfold Py.min_float_int.
      destruct (Py.int_lt_float m _) eqn:Hlt; cbn.
      * eexists; reflexivity.
      * destruct (floor_float_of_above m _ Hraw Hlt) as [k Hk].
        rewrite Hk. cbn. eexists; reflexivity.
  - intros e. unfold _calc_size, Py.truediv.
    rewrite Hguard, Hsl, Hprice. cbn.
    destruct (Py.floor_float (equity / price)) as [e1 | m] eqn:Hm; cbn.
    { intros [= <-]. now apply (floor_float_raises _ _ Hm). }
    unfold Py.min_float_int.
    destruct (Py.int_lt_float _ _); cbn; [discriminate |].
    destruct (Py.floor_float (equity * risk_per_trade p / (price * sl_pct p)))
      as [e2 | k] eqn:Hk; cbn; [| discriminate].
    intros [= <-]. now apply (floor_float_raises _ _ Hk).
  - intros equity' price' H0.
    destruct (price' * sl_pct p <=? 0) eqn:E; [reflexivity |].
    pose proof (calc_size_past_guard p equity' price' 0%Z E H0). lia.
Qed.

(** The theorem at equity 50, price 100 and the default parameters. *)
Lemma calc_size_returns_at_least_one_witness :
  (0 <? 100 * sl_pct default_params) = true /\
  exists n, _calc_size default_params 50 100 = inr n.
Proof.
  assert (Hpos : (0 <? 100 * sl_pct default_params) = true)
    by (vm_compute; reflexivity).
  split; [exact Hpos |].
  destruct (calc_size_returns_at_least_one default_params 50 100 Hpos)
    as (_ & Hiff & _).
  apply Hiff. split; vm_compute; reflexivity.
Defined.

End SizerReturns.

(** * More on the state machine *)

Section MachineRuns.

Local Open Scope float_scope.

Variable p : Params.

(** A property of the state kept by every step is kept by every run. *)
Lemma run_preserves (P : State -> Prop) :
  (forall st st' prev cur d,
     P st -> next p st prev cur = inr (st', d) -> P st') ->
  forall ticks st st' prev ds,
    P st -> run p st prev ticks = inr (st', ds) -> P st'.
Proof.
  intros Hstep. induction ticks as [| t ticks IH]; intros st st' prev ds HP; cbn.
  - now intros [= <- _].
  - destruct (next p st prev t) as [err | [s d]] eqn:Hn; [discriminate |].
    cbn. destruct (run p s t ticks) as [err | [s' ds']] eqn:Hr; [discriminate |].
    cbn. intros [= <- _]. eapply IH; [| exact Hr]. eapply Hstep; eauto.
Qed.

(** What each kind of order says about the position before and after. *)
Lemma next_position (st st' : State) (prev cur : Tick) (d : Decision) :
  next p st prev cur = inr (st', d) ->
  match d with
  | EnterLong _ => in_trade st = false /\ in_trade st' = true
  | Exit _ => in_trade st = true /\ in_trade st' = false
  | Hold => in_trade st' = in_trade st
  end.
Proof.
  unfold next. destruct (in_trade st); cbn.
  - destruct (entry_price st) as [x |]; [| discriminate].
    destruct (exit_reason p x _ cur); intros [= <- <-]; auto.
  - destruct (buy_condition p prev cur); [| intros [= <- <-]; auto].
    destruct (_calc_size _ _ _) as [err | size]; [discriminate |].
    cbn. destruct (size <=? 0)%Z; intros [= <- <-]; auto.
Qed.

Lemma last_cons {A : Type} (l : list A) (a d : A) : last (a :: l) d = last l a.
Proof.
  revert a d. induction l as [| b l IH]; intros a d; [reflexivity |].
  change (last (a :: b :: l) d) with (last (b :: l) d).
  now rewrite (IH b d), (IH b a).
Qed.

(** X5. Along any run the orders alternate: an entry is sent only while no
    position is open and an exit only while one is, and the final state is
    LONG exactly when the last entry or exit sent was an entry. *)
Theorem entries_and_exits_alternate
  (st st' : State) (prev : Tick) (ticks : list Tick) (ds : list Decision) :
  run p st prev ticks = inr (st', ds) ->
  alternates (in_trade st) ds = true /\
  in_trade st' = position_after (in_trade st) ds.
Proof.
  revert st st' prev ds.
  induction ticks as [| t ticks IH]; intros st st' prev ds; cbn.
  - intros [= <- <-]. auto.
  - destruct (next p st prev t) as [err | [s d]] eqn:Hn; [discriminate |].
    cbn. destruct (run p s t ticks) as [err | [s' ds']] eqn:Hr; [discriminate |].
    cbn. intros [= <- <-].
    destruct (IH _ _ _ _ Hr) as [Halt Hpos].
    pose proof (next_position _ _ _ _ _ Hn) as Hd.
    destruct d as [n | r |]; cbn.
    + destruct Hd as [-> Hs]. rewrite Hs in Halt, Hpos. auto.
    + destruct Hd as [-> Hs]. rewrite Hs in Halt, Hpos. auto.
    + rewrite Hd in Halt, Hpos. auto.
Qed.

Lemma exit_reason_none (entry : float) (bars : Z) (cur : Tick) :
  exit_reason p entry bars cur = None ->
  (max_bars_in_trade p <=? bars)%Z = false.
Proof.
  unfold exit_reason.
  destruct (Py.geb (bar_close (bar cur)) (entry * (1 + tp_pct p)));
    [discriminate |].
  destruct (bar_close (bar cur) <=? entry * (1 - sl_pct p)); [discriminate |].
  destruct (cross cur <? 0); [discriminate |].
  destruct (max_bars_in_trade p <=? bars)%Z; [discriminate | reflexivity].
Qed.

Lemma next_counter_in_range (st st' : State) (prev cur : Tick) (d : Decision) :
  counter_in_range p st -> next p st prev cur = inr (st', d) ->
  counter_in_range p st'.
Proof.
  unfold counter_in_range, next, track_bars.
  intros [Hnn Hlt]. destruct (in_trade st); cbn.
  - destruct (entry_price st) as [x |]; [| discriminate].
    destruct (exit_reason p x (bars_in_trade st + 1) cur) eqn:E;
      intros [= <- _]; cbn; split; try lia; try discriminate.
    intros _. apply exit_reason_none, Z.leb_gt in E. lia.
  - destruct (buy_condition p prev cur);
      [| intros [= <- _]; cbn; split; [lia | discriminate]].
    destruct (_calc_size _ _ _) as [err | size]; [discriminate |].
    cbn. destruct (size <=? 0)%Z; intros [= <- _]; cbn; split;
      try lia; try discriminate.
Qed.

(** X6. At every point of a run the bar counter is non-negative, and while
    LONG it is below [max(1, max_bars_in_trade)]: whatever the prices and
    signals, no position stays open past the time-stop. *)
Theorem holding_time_is_bounded
  (prev : Tick) (ticks : list Tick) (st : State) (ds : list Decision) :
  run p init_state prev ticks = inr (st, ds) ->
  (0 <= bars_in_trade st)%Z /\
  (in_trade st = true ->
   (bars_in_trade st < Z.max 1 (max_bars_in_trade p))%Z).
Proof.
  intros Hrun.
  apply (run_preserves (counter_in_range p) next_counter_in_range
           ticks init_state st prev ds); [| exact Hrun].
  split; cbn; [lia | discriminate].
Qed.

End MachineRuns.

(** * Entries, prices and exceptions *)

Section EntryFacts.

Local Open Scope float_scope.

(** Rounding a negative product never gives a number above zero. *)
Lemma round_neg_not_pos (m e : Z) (l : location) :
  SFltb (S754_zero false) (binary_round_aux prec emax true m e l) = false.
Proof.
  unfold binary_round_aux.
  destruct (shr_fexp prec emax m e l) as [mrs e'].
  destruct (shr_fexp prec emax _ e' loc_Exact) as [mrs' e''].
  destruct (shr_m mrs'); [reflexivity | | reflexivity].
  destruct (Z.leb e'' (Z.sub emax prec)); reflexivity.
Qed.

(** If a product is above zero and one factor is not below zero, the other
    factor is above zero. *)
Lemma mul_pos_factor (x y : float) :
  (0 <? x * y) = true -> (y <? 0) = false -> (0 <? x) = true.
Proof.
  rewrite !ltb_spec, mul_spec.
  change (Prim2SF 0) with (S754_zero false).
  unfold SF64mul, SFmul.
  destruct (Prim2SF x) as [s | s | | s m e];
    destruct (Prim2SF y) as [t | t | | t m' e'];
    try destruct s; try destruct t; cbn [xorb];
    try rewrite round_neg_not_pos;
    cbn [SFltb SFcompare]; intros H1 H2;
    try discriminate H1; try discriminate H2; reflexivity.
Qed.

(** A number that is not [<= 0] is NaN or above zero. *)
Lemma not_leb_zero (x : float) :
  (x <=? 0) = false -> is_nan x = true \/ (0 <? x) = true.
Proof.
  rewrite leb_spec, ltb_spec. intros H.
  destruct (Prim2SF x) as [s | s | | s m e] eqn:E.
  - destruct s; discriminate H.
  - destruct s; [discriminate H | right; reflexivity].
  - left. now apply Prim2SF_is_nan.
  - destruct s; [discriminate H | right; reflexivity].
Qed.

Lemma div_nan_r (x y : float) : is_nan y = true -> is_nan (x / y) = true.
Proof.
  intros H. apply Prim2SF_is_nan.
  rewrite div_spec, (is_nan_Prim2SF y H).
  destruct (Prim2SF x); reflexivity.
Qed.

(** [min] of NaN and an integer is NaN, which has no floor. *)
Lemma floor_min_nan (x : float) (m : Z) :
  is_nan x = true ->
  Py.floor (Py.min_float_int x m) = inl Py.ValueError.
Proof.
  intros H. unfold Py.min_float_int, Py.int_lt_float.
  rewrite (is_nan_Prim2SF x H). cbn [Py.floor]. unfold Py.floor_float.
  rewrite (is_nan_Prim2SF x H). reflexivity.
Qed.

(** A positive size is returned only for a stop distance above zero. *)
Lemma calc_size_positive_stop (p : Params) (equity price : float) (n : Z) :
  _calc_size p equity price = inr n -> (0 < n)%Z ->
  (0 <? price * sl_pct p) = true.
Proof.
  unfold _calc_size, Py.truediv. intros Hsize Hn.
  destruct (price * sl_pct p <=? 0) eqn:Hguard.
  { injection Hsize as <-. lia. }
  destruct (not_leb_zero _ Hguard) as [Hnan | Hpos]; [| exact Hpos].
  exfalso. revert Hsize.
  destruct (price * sl_pct p =? 0); [discriminate |].
  destruct (price =? 0); [discriminate |].
  cbn. destruct (Py.floor_float (equity / price)) as [e | m]; [discriminate |].
  cbn. rewrite (floor_min_nan _ m (div_nan_r _ _ Hnan)). discriminate.
Qed.

(** The sizer does no arithmetic on [None]. *)
Lemma calc_size_no_type_error (p : Params) (equity price : float) :
  _calc_size p equity price <> inl Py.TypeError.
Proof.
  unfold _calc_size, Py.truediv.
  destruct (price * sl_pct p <=? 0); [discriminate |].
  destruct (price * sl_pct p =? 0); [discriminate |].
  destruct (price =? 0); [discriminate |].
  cbn. destruct (Py.floor_float (equity / price)) as [e | m] eqn:Hm; cbn.
  { intros [= ->]. destruct (floor_float_raises _ _ Hm); discriminate. }
  unfold Py.min_float_int.
  destruct (Py.int_lt_float _ _); cbn; [discriminate |].
  destruct (Py.floor_float (equity * risk_per_trade p / (price * sl_pct p)))
    as [e | k] eqn:Hk; cbn; [| discriminate].
  intros [= ->]. destruct (floor_float_raises _ _ Hk); discriminate.
Qed.

Variable p : Params.

(** An entry is sent only at a close above zero, when the stop-loss
    fraction is not negative. *)
Lemma next_enter_positive (st st' : State) (prev cur : Tick) (n : Z) :
  (sl_pct p <? 0) = false ->
  next p st prev cur = inr (st', EnterLong n) ->
  (0 <? bar_close (bar cur)) = true.
Proof.
  intros Hsl. unfold next. destruct (in_trade st); cbn.
  - destruct (entry_price st) as [x |]; [| discriminate].
    destruct (exit_reason p x _ cur); discriminate.
  - destruct (buy_condition p prev cur); [| discriminate].
    destruct (_calc_size _ _ _) as [err | size] eqn:Hsize; [discriminate |].
    cbn. destruct (size <=? 0)%Z eqn:E; [discriminate |].
    intros _. apply Z.leb_gt in E.
    exact (mul_pos_factor _ _ (calc_size_positive_stop _ _ _ _ Hsize E) Hsl).
Qed.

Lemma next_keeps_positive (st st' : State) (prev cur : Tick) (d : Decision) :
  (sl_pct p <? 0) = false ->
  entry_is_positive st -> next p st prev cur = inr (st', d) ->
  entry_is_positive st'.
Proof.
  intros Hsl Hinv Hnext.
  destruct d as [n | r |].
  - pose proof (next_enter_positive _ _ _ _ _ Hsl Hnext) as Hpos.
    destruct (next_enter p _ _ _ _ _ Hnext) as (_ & _ & He).
    intros e. rewrite He. now intros [= <-].
  - destruct (next_exit p _ _ _ _ _ Hnext) as (_ & _ & He & _).
    intros e. rewrite He. apply Hinv.
  - revert Hnext. unfold next. destruct (in_trade st); cbn.
    + destruct (entry_price st) as [x |] eqn:Ex; [| discriminate].
      destruct (exit_reason p x _ cur); [discriminate |].
      intros [= <-]. cbn. rewrite <- Ex. exact Hinv.
    + destruct (buy_condition p prev cur); [| intros [= <-]; exact Hinv].
      destruct (_calc_size _ _ _) as [err | size]; [discriminate |].
      cbn. destruct (size <=? 0)%Z; [| discriminate].
      intros [= <-]. exact Hinv.
Qed.

(** X4. With a stop-loss fraction that is not negative, a position is only
    ever entered at a close above zero, so at every point of a run the
    recorded entry price, when there is one, is a number above zero (in
    particular not NaN). *)
Theorem entry_price_is_positive
  (prev : Tick) (ticks : list Tick) (st : State) (ds : list Decision) :
  (sl_pct p <? 0) = false ->
  run p init_state prev ticks = inr (st, ds) ->
  (forall e, entry_price st = Some e -> (0 <? e) = true) /\
  (forall s s' pv t n,
     next p s pv t = inr (s', EnterLong n) ->
     (0 <? bar_close (bar t)) = true).
Proof.
  intros Hsl Hrun. split.
  - apply (run_preserves p entry_is_positive
             (fun a b c d e => next_keeps_positive a b c d e Hsl)
             ticks init_state st prev ds); [| exact Hrun].
    intros e. discriminate.
  - intros s s' pv t n. now apply next_enter_positive.
Qed.

(** An exception in a run is raised by the sizer on a bar meeting the entry
    conditions, from any start state that satisfies the position invariant. *)
Lemma run_raises_from (ticks : list Tick) :
  forall (st : State) (prev : Tick) (e : Py.exn),
    long_has_entry st ->
    run p st prev ticks = inl e ->
    exists pre t post,
      ticks = pre ++ t :: post /\
      buy_condition p (last pre prev) t = true /\
      _calc_size p (broker_value t) (bar_close (bar t)) = inl e.
Proof.
  induction ticks as [| t ticks IH]; intros st prev e Hinv; cbn;
    [discriminate |].
  destruct (next p st prev t) as [err | [s d]] eqn:Hn; cbn.
  - intros [= ->]. exists [], t, ticks. split; [reflexivity |].
    revert Hn. unfold next. destruct (in_trade st) eqn:Hin; cbn.
    + destruct (Hinv Hin) as [x ->].
      destruct (exit_reason p x _ t); discriminate.
    + destruct (buy_condition p prev t); [| discriminate].
      destruct (_calc_size _ _ _) as [err | size]; cbn.
      * intros [= ->]. auto.
      * destruct (size <=? 0)%Z; discriminate.
  - destruct (run p s t ticks) as [err | [s' ds']] eqn:Hr; [| discriminate].
    cbn. intros [= ->].
    destruct (IH s t e (next_keeps_invariant p _ _ _ _ _ Hinv Hn) Hr)
      as (pre & u & post & -> & Hb & Hc).
    exists (t :: pre), u, post. rewrite last_cons. auto.
Qed.

(** X7. A run that starts from the initial state never fails on the unset
    [entry_price]: [next] multiplies [entry_price] only while in a trade, and
    then it has been set, so no [TypeError] from [None * float] is raised. *)
Theorem run_never_type_error (prev : Tick) (ticks : list Tick) :
  run p init_state prev ticks <> inl Py.TypeError.
Proof.
  intros Hrun.
  assert (Hinit : long_has_entry init_state) by (intros H; discriminate).
  destruct (run_raises_from ticks init_state prev Py.TypeError Hinit Hrun)
    as (pre & t & post & _ & _ & Hc).
  exact (calc_size_no_type_error _ _ _ Hc).
Qed.

End EntryFacts.

(** * The time-stop along a run *)

Section TimeStop.

Local Open Scope float_scope.

Variable p : Params.

(** X9. At any point of a run, a bar that exits on the time-stop leaves the
    counter at exactly [max(1, max_bars_in_trade)]: whatever happened before,
    a time-stop exit is never late. *)
Theorem time_stop_is_never_late
  (prev : Tick) (ticks : list Tick) (st st' : State) (ds : list Decision)
  (pv t : Tick) :
  run p init_state prev ticks = inr (st, ds) ->
  next p st pv t = inr (st', Exit MaxBars) ->
  bars_in_trade st' = Z.max 1 (max_bars_in_trade p).
Proof.
  intros Hrun Hnext.
  assert (Hinv : counter_in_range p st).
  { apply (run_preserves p (counter_in_range p) (next_counter_in_range p)
             ticks init_state st prev ds); [| exact Hrun].
    split; cbn; [lia | discriminate]. }
  destruct Hinv as [Hnn Hlt].
  revert Hnext. unfold next, track_bars.
  destruct (in_trade st); cbn.
  - specialize (Hlt eq_refl).
    destruct (entry_price st) as [x |]; [| discriminate].
    unfold exit_reason.
    destruct (Py.geb (bar_close (bar t)) (x * (1 + tp_pct p)));
      [discriminate |].
    destruct (bar_close (bar t) <=? x * (1 - sl_pct p)); [discriminate |].
    destruct (cross t <? 0); [discriminate |].
    destruct (max_bars_in_trade p <=? bars_in_trade st + 1)%Z eqn:E;
      [| discriminate].
    apply Z.leb_le in E. intros [= <-]. cbn. lia.
  - destruct (buy_condition p pv t); [| discriminate].
    destruct (_calc_size _ _ _) as [err | size]; [discriminate |].
    cbn. destruct (size <=? 0)%Z; discriminate.
Qed.

End TimeStop.

(** * The further theorems on concrete runs *)

Section MoreInstances.

Local Open Scope float_scope.

(** [calc_size_closed_form] at equity 10,000 and price 100. *)
Lemma calc_size_closed_form_witness :
  _calc_size default_params 10000 100
  = inr (Z.max 1 (Z.min 100000 100)).
Proof.
  apply (calc_size_closed_form default_params 10000 100 100000 100);
    vm_compute; reflexivity.
Defined.

(** [calc_size_within_affordable] at equity 50 and price 100. *)
Lemma calc_size_within_affordable_witness :
  (0 <= 1 <= Z.max 1 0)%Z /\ ((1 <= 0)%Z -> (1 <= 0)%Z).
Proof.
  apply (calc_size_within_affordable default_params 50 100 1 0);
    vm_compute; reflexivity.
Defined.

(** [calc_size_raises_only_from_floor] where equity / price overflows. *)
Lemma calc_size_raises_only_from_floor_witness :
  _calc_size default_params 1e308 1e-308 = inl Py.OverflowError /\
  (Py.OverflowError = Py.ValueError \/ Py.OverflowError = Py.OverflowError).
Proof.
  assert (H : _calc_size default_params 1e308 1e-308 = inl Py.OverflowError)
    by (vm_compute; reflexivity).
  split; [exact H |].
  apply (calc_size_raises_only_from_floor default_params 1e308 1e-308
           Py.OverflowError eq_refl H).
Defined.

(** [entry_price_is_positive] on the run that ends right after an entry. *)
Lemma entry_price_is_positive_witness :
  (0 <? 99.6) = true.
Proof.
  assert (Hrun : run default_params init_state (quiet_tick 99.6 10000)
                     [signal_tick 99.6 10000]
                 = inr (entered 99.6, [EnterLong 100]))
    by (vm_compute; reflexivity).
  destruct (entry_price_is_positive default_params _ _ _ _ eq_refl Hrun)
    as (H & _).
  apply H. reflexivity.
Defined.

(** [entries_and_exits_alternate] on an entry followed by a take-profit. *)
Lemma entries_and_exits_alternate_witness :
  alternates false [EnterLong 100; Exit TakeProfit] = true /\
  false = position_after false [EnterLong 100; Exit TakeProfit].
Proof.
  apply (entries_and_exits_alternate default_params init_state
           {| in_trade := false; entry_price := Some 99.6;
              bars_in_trade := 1 |}
           (quiet_tick 99.6 10000)
           [signal_tick 99.6 10000; quiet_tick 100 10000]).
  vm_compute. reflexivity.
Defined.

(** [holding_time_is_bounded] two bars into a position under
    [short_params]. *)
Lemma holding_time_is_bounded_witness :
  (0 <= 2)%Z /\ (true = true -> (2 < Z.max 1 3)%Z).
Proof.
  apply (holding_time_is_bounded short_params (quiet_tick 99.6 10000)
           [signal_tick 99.6 10000; quiet_tick 99.6 10000;
            quiet_tick 99.6 10000]
           {| in_trade := true; entry_price := Some 99.6;
              bars_in_trade := 2 |}
           [EnterLong 100; Hold; Hold]).
  vm_compute. reflexivity.
Defined.

(** [time_stop_is_never_late] on the third bar after an entry under
    [short_params]. *)
Lemma time_stop_is_never_late_witness :
  bars_in_trade {| in_trade := false; entry_price := Some 99.6;
                   bars_in_trade := 3 |}
  = Z.max 1 (max_bars_in_trade short_params).
Proof.
  apply (time_stop_is_never_late short_params (quiet_tick 99.6 10000)
           [signal_tick 99.6 10000; quiet_tick 99.6 10000;
            quiet_tick 99.6 10000]
           {| in_trade := true; entry_price := Some 99.6;
              bars_in_trade := 2 |}
           {| in_trade := false; entry_price := Some 99.6;
              bars_in_trade := 3 |}
           [EnterLong 100; Hold; Hold]
           (quiet_tick 99.6 10000) (quiet_tick 99.6 10000));
    vm_compute; reflexivity.
Defined.

End MoreInstances.
